(** * auto-install: the helpers of [helpers.js]

    A shallow embedding of the detection pipeline of [helpers.js]
    (extraction of [require] calls, validation, classification,
    de-duplication, diffing) and of the two apply actions, followed by the
    properties of the specification that were checked against it.

    Conventions
    - a JavaScript string is the list of its UTF-16 code units ([str]);
    - a JavaScript value is a [value]; an operation that can throw returns
      a [result];
    - the external collaborators ([fs], [glob], [sync-exec],
      [sync-request], [is-builtin-module], [JSON.parse]) are arguments of
      the functions that call them;
    - console and process effects are recorded in a trace of [event]s
      threaded by the monad [IO]. *)

From Stdlib Require Import String Ascii.
From Stdlib Require Import ZArith NArith Bool Lia List.
Import ListNotations.
Local Open Scope list_scope.

Set Implicit Arguments.

(* ================================================================== *)
(** ** JavaScript strings *)
(* ================================================================== *)

Module JsString.

(** A string is its sequence of UTF-16 code units. *)
Definition str := list N.

(** The code units of an ASCII literal of the source. *)
Definition lit (s : string) : str :=
  map N_of_ascii (list_ascii_of_string s).

Fixpoint eqb (a b : str) : bool :=
  match a, b with
  | [], [] => true
  | x :: a', y :: b' => N.eqb x y && eqb a' b'
  | _, _ => false
  end.

(** [s.startsWith(p)] *)
Fixpoint starts_with (p s : str) : bool :=
  match p, s with
  | [], _ => true
  | x :: p', y :: s' => N.eqb x y && starts_with p' s'
  | _ :: _, [] => false
  end.

(** [s.endsWith(p)] *)
Definition ends_with (p s : str) : bool :=
  starts_with (rev p) (rev s).

(** [s.indexOf(p)], scanning from [i]; [-1] when [p] does not occur. *)
Fixpoint indexOf_from (p s : str) (i : Z) : Z :=
  if starts_with p s then i
  else match s with
       | [] => (-1)%Z
       | _ :: s' => indexOf_from p s' (i + 1)
       end.

Definition indexOf (s p : str) : Z := indexOf_from p s 0.

(** [s.substring(a, b)]: both ends are clamped to [0 .. s.length] and
    swapped when [a > b]. *)
Definition clamp (len i : Z) : Z := Z.max 0 (Z.min i len).

Definition substring (s : str) (a b : Z) : str :=
  let len := Z.of_nat (length s) in
  let a' := clamp len a in
  let b' := clamp len b in
  let lo := Z.min a' b' in
  let hi := Z.max a' b' in
  firstn (Z.to_nat (hi - lo)) (skipn (Z.to_nat lo) s).

(** [s.substring(a)] *)
Definition substring_from (s : str) (a : Z) : str :=
  substring s a (Z.of_nat (length s)).

(** [s.replace(p, r)] for a string pattern [p] and a replacement [r]
    without [$]: only the first occurrence is replaced. *)
Fixpoint replace (s p r : str) : str :=
  if starts_with p s then r ++ skipn (length p) s
  else match s with
       | [] => []
       | c :: s' => c :: replace s' p r
       end.

End JsString.

Import JsString.

(* ================================================================== *)
(** ** Values, exceptions *)
(* ================================================================== *)

(** [{ name, dev }] *)
Record ModuleRef := mkModule { name : str; dev : bool }.

Inductive value :=
| VUndefined
| VNull
| VBool (b : bool)
| VStr (s : str)
| VModule (m : ModuleRef).

Inductive exn :=
| TypeError
| SyntaxError
| IOError.

Inductive result (A : Type) :=
| Ok (a : A)
| Throw (e : exn).

Arguments Ok {A} a.
Arguments Throw {A} e.

Definition rbind {A B} (r : result A) (f : A -> result B) : result B :=
  match r with
  | Ok a => f a
  | Throw e => Throw e
  end.

(** ToString *)
Definition ToString (v : value) : str :=
  match v with
  | VUndefined => lit "undefined"
  | VNull => lit "null"
  | VBool true => lit "true"
  | VBool false => lit "false"
  | VStr s => s
  | VModule _ => lit "[object Object]"
  end.

(** [v === s] for a string literal [s] *)
Definition strict_eq_str (v : value) (s : str) : bool :=
  match v with
  | VStr s' => JsString.eqb s' s
  | _ => false
  end.

(** ToBoolean *)
Definition ToBoolean (v : value) : bool :=
  match v with
  | VUndefined | VNull => false
  | VBool b => b
  | VStr s => match s with [] => false | _ => true end
  | VModule _ => true
  end.

(** The parameter pattern [({name, dev})]: destructuring [undefined] or
    [null] throws; a primitive has neither property. *)
Definition destructure_name_dev (v : value) : result (value * value) :=
  match v with
  | VUndefined | VNull => Throw TypeError
  | VModule m => Ok (VStr (name m), VBool (dev m))
  | VBool _ | VStr _ => Ok (VUndefined, VUndefined)
  end.

(* ================================================================== *)
(** ** Regular expressions *)
(* ================================================================== *)

Module RegExp.

Inductive classitem :=
| CRange (lo hi : N)
| CChar (c : N).

Inductive atom :=
| Lit (c : N)
| Dot
| Class (items : list classitem).

(** The fragment used by [helpers.js]: quantifiers apply to one-unit
    atoms.  Without the [g] flag only success is observed and with it
    only the whole matches are, so a group is transparent. *)
Inductive regex :=
| REmpty
| RAtom (a : atom)
| RRepeat (a : atom) (min : nat) (greedy : bool)
| RSeq (r1 r2 : regex)
| RGroup (r : regex)
| RBol
| REol.

Definition line_terminator (c : N) : bool :=
  N.eqb c 10 || N.eqb c 13 || N.eqb c 8232 || N.eqb c 8233.

Definition item_matches (i : classitem) (c : N) : bool :=
  match i with
  | CRange lo hi => N.leb lo c && N.leb c hi
  | CChar x => N.eqb x c
  end.

Definition atom_matches (a : atom) (c : N) : bool :=
  match a with
  | Lit x => N.eqb x c
  | Dot => negb (line_terminator c)
  | Class items => existsb (fun i => item_matches i c) items
  end.

(** A continuation receives the index reached and the rest of the
    input, and answers with the end index of the whole match. *)
Definition cont := nat -> str -> option nat.

Fixpoint repeat_matcher (a : atom) (greedy : bool) (min : nat) (k : cont)
         (idx : nat) (s : str) {struct s} : option nat :=
  match min with
  | S min' =>
      match s with
      | c :: s' =>
          if atom_matches a c
          then repeat_matcher a greedy min' k (S idx) s'
          else None
      | [] => None
      end
  | O =>
      let more :=
        match s with
        | c :: s' =>
            if atom_matches a c
            then repeat_matcher a greedy 0 k (S idx) s'
            else None
        | [] => None
        end in
      if greedy
      then match more with Some e => Some e | None => k idx s end
      else match k idx s with Some e => Some e | None => more end
  end.

Fixpoint matcher (r : regex) (k : cont) (idx : nat) (s : str) : option nat :=
  match r with
  | REmpty => k idx s
  | RAtom a =>
      match s with
      | c :: s' => if atom_matches a c then k (S idx) s' else None
      | [] => None
      end
  | RRepeat a min greedy => repeat_matcher a greedy min k idx s
  | RSeq r1 r2 => matcher r1 (matcher r2 k) idx s
  | RGroup r1 => matcher r1 k idx s
  | RBol => if Nat.eqb idx 0 then k idx s else None
  | REol => match s with [] => k idx s | _ :: _ => None end
  end.

(** The continuation that ends a match. *)
Definition finish : cont := fun e _ => Some e.

(** One attempt at index [idx], [s] being the input from there on. *)
Definition match_at (r : regex) (idx : nat) (s : str) : option nat :=
  matcher r finish idx s.

(** [r.test(s)] for [r] without [g]: the first index with a match. *)
Fixpoint search (r : regex) (idx : nat) (s : str) : option (nat * nat) :=
  match match_at r idx s with
  | Some e => Some (idx, e)
  | None =>
      match s with
      | [] => None
      | _ :: s' => search r (S idx) s'
      end
  end.

Definition test (r : regex) (s : str) : bool :=
  match search r 0 s with Some _ => true | None => false end.

(** The matches of a [g] regex, left to right: after a match the scan
    resumes at its end ([skip] units are passed over), and one unit
    further after an empty match. *)
Fixpoint match_all (r : regex) (skip idx : nat) (s : str) : list str :=
  match skip with
  | S skip' =>
      match s with
      | [] => []
      | _ :: s' => match_all r skip' (S idx) s'
      end
  | O =>
      match match_at r idx s with
      | Some e =>
          firstn (e - idx) s ::
            match s with
            | [] => []
            | _ :: s' => match_all r (e - idx - 1) (S idx) s'
            end
      | None =>
          match s with
          | [] => []
          | _ :: s' => match_all r 0 (S idx) s'
          end
      end
  end.

(** [s.match(r)] for [r] with [g]: [null] when nothing matches. *)
Definition String_match (s : str) (r : regex) : option (list str) :=
  match match_all r 0 0 s with
  | [] => None
  | ms => Some ms
  end.

(** The literal characters of [s], in sequence. *)
Fixpoint chars (s : str) : regex :=
  match s with
  | [] => REmpty
  | c :: s' => RSeq (RAtom (Lit c)) (chars s')
  end.

End RegExp.

Import RegExp.

(* ================================================================== *)
(** ** Arrays, effects *)
(* ================================================================== *)

(** [l.indexOf(x)] on an array of strings; [-1] when [x] is absent. *)
Fixpoint Array_indexOf_from (l : list str) (x : str) (i : Z) : Z :=
  match l with
  | [] => (-1)%Z
  | y :: l' => if JsString.eqb y x then i else Array_indexOf_from l' x (i + 1)
  end.

Definition Array_indexOf (l : list str) (x : str) : Z :=
  Array_indexOf_from l x 0.

(** [logSymbols] *)
Inductive symbol := SymSuccess | SymWarning | SymError.

(** What a run does to the outside world, in order. *)
Inductive event :=
| SpinnerStart (text color : str)
| SpinnerStop
| ConsoleLog (sym : symbol) (message : str)
| Exec (command : str).

(** An action reads the trace so far and extends it; it returns a value
    or throws. *)
Definition IO (A : Type) : Type := list event -> result A * list event.

Definition ret {A} (a : A) : IO A := fun t => (Ok a, t).

Definition bind {A B} (m : IO A) (f : A -> IO B) : IO B :=
  fun t =>
    match m t with
    | (Ok a, t') => f a t'
    | (Throw e, t') => (Throw e, t')
    end.

Definition emit (e : event) : IO unit := fun t => (Ok tt, t ++ [e]).

Definition lift {A} (r : result A) : IO A := fun t => (r, t).

Declare Scope io_scope.
Delimit Scope io_scope with io.
Notation "x <- m ;; k" := (bind m (fun x => k))
  (at level 61, m at next level, right associativity) : io_scope.
Notation "m ;; k" := (bind m (fun _ => k))
  (at level 61, right associativity) : io_scope.

(** The trace of an action started in the empty world. *)
Definition run {A} (m : IO A) : result A * list event := m [].

Definition ch (a : ascii) : N := N_of_ascii a.

(* ================================================================== *)
(** ** helpers.js *)
(* ================================================================== *)

(** [let pattern = /require\((.*?)\)/g] *)
Definition pattern : regex :=
  RSeq (chars (lit "require"))
    (RSeq (RAtom (Lit (ch "(")))
       (RSeq (RGroup (RRepeat Dot 0 false))
          (RAtom (Lit (ch ")"))))).

(** [new RegExp("^([a-z0-9-_]{1,})$")] *)
Definition isValidModule_regex : regex :=
  RSeq RBol
    (RSeq (RGroup (RRepeat (Class [CRange (ch "a") (ch "z");
                                   CRange (ch "0") (ch "9");
                                   CChar (ch "-");
                                   CChar (ch "_")]) 1 true))
       REol).

(** [isValidModule = ({name, dev}) => regex.test(name)] *)
Definition isValidModule (arg : value) : result bool :=
  rbind (destructure_name_dev arg) (fun '(name, dev) =>
  let regex := isValidModule_regex in
  Ok (test regex (ToString name))).

(** [getNamesFromModules] *)
Definition getNamesFromModules (modules : list ModuleRef) : list str :=
  map (fun module => name module) modules.

(** [diff] *)
Definition diff (first second : list ModuleRef) : list ModuleRef :=
  let namesFromSecond := getNamesFromModules second in
  filter (fun module => (Array_indexOf namesFromSecond (name module) <? 0)%Z)
         first.

(** [deduplicateSimilarModules]: the loop carries the two arrays. *)
Definition deduplicateSimilarModules (modules : list ModuleRef)
  : list ModuleRef :=
  let dedupedModules := [] in
  let dedupedModuleNames := [] in
  fst (fold_left
         (fun '(dedupedModules, dedupedModuleNames) module =>
            if (Array_indexOf dedupedModuleNames (name module) =? -1)%Z
            then (dedupedModules ++ [module],
                  dedupedModuleNames ++ [name module])
            else (dedupedModules, dedupedModuleNames))
         modules (dedupedModules, dedupedModuleNames)).

(** [deduplicate] *)
Definition deduplicate (modules : list ModuleRef) : list ModuleRef :=
  let dedupedModules := [] in
  let testModules := filter (fun module => dev module) modules in
  let dedupedModules :=
    dedupedModules ++ deduplicateSimilarModules testModules in
  let prodModules := filter (fun module => negb (dev module)) modules in
  let dedupedModules :=
    dedupedModules ++ deduplicateSimilarModules prodModules in
  dedupedModules.

(** [removeLocalFiles] *)
Definition removeLocalFiles (modules : list ModuleRef) : list ModuleRef :=
  filter (fun module =>
            negb (JsString.indexOf (name module) (lit "./") =? 0)%Z)
         modules.

(** [isTestFile] *)
Definition isTestFile (name : str) : bool :=
  ends_with (lit ".spec.js") name || ends_with (lit ".test.js") name.

(** [POPULARITY_THRESHOLD] *)
Definition POPULARITY_THRESHOLD : Z := 10000.

(** [glob.sync]'s options object. *)
Record GlobOptions := mkGlobOptions { ignore : list str }.

Section Helpers.

(** [is-builtin-module] *)
Variable isBuiltInModule : str -> bool.

(** [fs.readFileSync(path, 'utf8')] on the file system of the run. *)
Variable readFileSync : str -> result str.

(** [glob.sync(pattern, options)] on the file system of the run, from
    the working directory. *)
Variable glob_sync : str -> GlobOptions -> list str.

(** [sync-exec]: the exit status of a command. *)
Variable syncExec : str -> Z.

(** [sync-request]'s [request(method, url, third)]; what it does with
    its third argument is its own business. *)
Variable request :
  str -> str -> (value -> value -> value -> result value) -> result value.

(** [JSON.parse(body).downloads]; [None] when that is not a number. *)
Variable body_downloads : value -> result (option Z).

(** [let secureMode = false; if (argv.secure) secureMode = true;] *)
Variable secureMode : bool.

(** [removeBuiltInModules] *)
Definition removeBuiltInModules (modules : list ModuleRef)
  : list ModuleRef :=
  filter (fun module => negb (isBuiltInModule (name module))) modules.

(** [filterRegistryModules] *)
Definition filterRegistryModules (modules : list ModuleRef)
  : list ModuleRef :=
  let modules := removeBuiltInModules modules in
  let modules := removeLocalFiles modules in
  modules.

(** [getFiles = (path) => glob.sync(...)] *)
Definition getFiles (path : value) : list str :=
  glob_sync (lit "**/*.js")
            {| ignore := [lit "node_modules/**/*"] |}.

(** The body of the [for] loop of [getModulesFromFile]. *)
Definition getModulesFromFile_step (modules : list str) (match_ : str)
  : result (list str) :=
  let match_ := replace match_ (lit "require") (lit "") in
  let match_ := substring_from match_ 2 in
  let match_ := substring match_ 0 (Z.of_nat (length match_) - 2) in
  rbind (isValidModule (VStr match_)) (fun valid =>
  Ok (if valid then modules ++ [match_] else modules)).

(** [getModulesFromFile] *)
Definition getModulesFromFile (path : str) : result (list str) :=
  rbind (readFileSync path) (fun content =>
  let modules := [] in
  match String_match content pattern with
  | None => Ok modules
  | Some matches =>
      fold_left (fun acc match_ =>
                   rbind acc (fun modules =>
                   getModulesFromFile_step modules match_))
                matches (Ok modules)
  end).

(** [getUsedModules] *)
Definition getUsedModules : result (list ModuleRef) :=
  let files := getFiles VUndefined in
  rbind
    (fold_left (fun acc fileName =>
                  rbind acc (fun usedModules =>
                  rbind (getModulesFromFile fileName) (fun modulesFromFile =>
                  let dev := isTestFile fileName in
                  Ok (usedModules
                        ++ map (fun name => mkModule name dev)
                               modulesFromFile))))
               files (Ok []))
    (fun usedModules => Ok (deduplicate usedModules)).

Local Open Scope io_scope.

(** [runCommand]: status 0 is success. *)
Definition runCommand (command : str) : IO bool :=
  emit (Exec command) ;;
  let response_status := syncExec command in
  ret (response_status =? 0)%Z.

(** [startSpinner]; the spinner object is not inspected afterwards. *)
Definition startSpinner (message type : str) : IO unit :=
  emit (SpinnerStart message type).

(** [stopSpinner] *)
Definition stopSpinner (spinner : unit) (message type : value)
  : IO unit :=
  emit SpinnerStop ;;
  if negb (ToBoolean message) then ret tt
  else
    let symbol :=
      if strict_eq_str type (lit "red") then SymError
      else if strict_eq_str type (lit "yellow") then SymWarning
      else SymSuccess in
    emit (ConsoleLog symbol (ToString message)).

(** [isModulePopular]: the function given to [request] returns the
    comparison; [isModulePopular] itself has no [return]. *)
Definition isModulePopular (arg : value) : result value :=
  rbind (destructure_name_dev arg) (fun '(name, dev) =>
  let url :=
    lit "https://apa.npmjs.org/downloads/point/last-month/"
      ++ ToString name in
  rbind (request (lit "GET") url
           (fun error response body =>
              rbind (body_downloads body) (fun downloads =>
              Ok (VBool match downloads with
                        | Some d => (d >? POPULARITY_THRESHOLD)%Z
                        | None => false
                        end))))
        (fun _ => Ok VUndefined)).

(** [installModule] *)
Definition installModule (arg : value) : IO unit :=
  nd <- lift (destructure_name_dev arg) ;;
  let '(name, dev) := nd in
  spinner <- startSpinner (lit "Installing " ++ ToString name)
                          (lit "green") ;;
  untrusted <-
    (if secureMode
     then popular <- lift (isModulePopular name) ;;
          ret (negb (ToBoolean popular))
     else ret false) ;;
  if untrusted : bool
  then stopSpinner spinner (VStr (ToString name ++ lit " not trusted"))
                   (VStr (lit "yellow"))
  else
    let command := lit "npm install " ++ ToString name ++ lit " --save" in
    let message := ToString name ++ lit " installed" in
    let command := if ToBoolean dev then command ++ lit "-dev"
                   else command in
    let message := if ToBoolean dev
                   then message ++ lit " in devDependencies"
                   else message in
    success <- runCommand command ;;
    if success : bool
    then stopSpinner spinner (VStr message) (VStr (lit "green"))
    else stopSpinner spinner
                     (VStr (ToString name ++ lit " installation failed"))
                     (VStr (lit "yellow")).

(** [uninstallModule] *)
Definition uninstallModule (arg : value) : IO unit :=
  nd <- lift (destructure_name_dev arg) ;;
  let '(name, dev) := nd in
  spinner <- startSpinner (lit "Uninstalling " ++ ToString name)
                          (lit "red") ;;
  let command := lit "npm uninstall " ++ ToString name ++ lit " --save" in
  let message := ToString name ++ lit " removed" in
  let command := if ToBoolean dev then command ++ lit "-dev"
                 else command in
  let message := if ToBoolean dev
                 then message ++ lit " from devDependencies"
                 else message in
  runCommand command ;;
  stopSpinner spinner (VStr message) (VStr (lit "red")).

(** [reinstall] *)
Definition reinstall : IO unit :=
  spinner <- startSpinner (lit "Cleaning up") (lit "green") ;;
  runCommand (lit "npm install") ;;
  stopSpinner spinner VUndefined VUndefined.

End Helpers.

(* ================================================================== *)
(** ** The words of the specification *)
(* ================================================================== *)

(** A lowercase letter, a digit, a hyphen or an underscore. *)
Definition name_char (c : N) : bool :=
  ((ch "a" <=? c) && (c <=? ch "z"))%N
  || ((ch "0" <=? c) && (c <=? ch "9"))%N
  || (c =? ch "-")%N
  || (c =? ch "_")%N.

(** "matches [^[a-z0-9-_]+$]": at least one unit, all of them in the
    character set. *)
Definition matches_name_pattern (s : str) : bool :=
  match s with
  | [] => false
  | _ :: _ => forallb name_char s
  end.

(** "[x] occurs as the name of an element of [l]". *)
Definition name_occurs (x : str) (l : list ModuleRef) : bool :=
  existsb (fun m => JsString.eqb (name m) x) l.

(** "Keeps the first occurrence of each distinct name": the element at
    index [i] stays exactly when its name is not the name of an earlier
    element. *)
Definition first_occurrences (p : list ModuleRef) : list ModuleRef :=
  map snd
    (filter (fun '(i, m) => negb (name_occurs (name m) (firstn i p)))
            (combine (seq 0 (length p)) p)).

(** For the proofs: the loop of [deduplicateSimilarModules] as a recursion
    on what is left of the input, [seen] being [dedupedModuleNames]. *)
Fixpoint keep_unseen (seen : list str) (t : list ModuleRef)
  : list ModuleRef :=
  match t with
  | [] => []
  | m :: t' =>
      if (Array_indexOf seen (name m) =? -1)%Z
      then m :: keep_unseen (seen ++ [name m]) t'
      else keep_unseen seen t'
  end.

(** The quotes of a string literal, as code units. *)
Definition double_quote : N := 34.


(** The text [require(<q><x><q>)]. *)
Definition require_call (q : N) (x : str) : str :=
  lit "require(" ++ [q] ++ x ++ [q] ++ lit ")".

(** "No [require] call expression in [f]": the text [require(] does not
    occur in it. *)
Definition no_require (f : str) : bool :=
  (JsString.indexOf f (lit "require(") =? -1)%Z.




(** An [is-builtin-module] for the examples: core modules of Node.js. *)
Definition node_core_modules : list str :=
  map lit ["assert"; "buffer"; "child_process"; "crypto"; "events"; "fs";
           "http"; "https"; "net"; "os"; "path"; "stream"; "url"; "util";
           "zlib"]%string.

Definition isBuiltInModule_node (x : str) : bool :=
  existsb (fun b => JsString.eqb b x) node_core_modules.

(** A registry, for the examples, that answers every request at once and
    hands the given function a body reporting fifty million downloads. *)
Definition request_answering :
  str -> str -> (value -> value -> value -> result value) -> result value :=
  fun method url callback =>
    rbind (callback VNull VUndefined (VStr (lit "{downloads:50000000}")))
          (fun _ => Ok VUndefined).

Definition downloads_fifty_million : value -> result (option Z) :=
  fun body => Ok (Some 50000000%Z).

(** A package manager, for the examples, whose every command fails. *)
Definition syncExec_failing : str -> Z := fun command => 1%Z.

Definition is_Exec (e : event) : bool :=
  match e with
  | Exec _ => true
  | _ => false
  end.

(* ================================================================== *)
(** ** helpers.js: the manifest *)
(* ================================================================== *)

Section Manifest.

(** What [JSON.parse] returns. *)
Variable json : Type.

(** [JSON.parse] *)
Variable JSON_parse : str -> result json.

(** [o.key]: throws when [o] is [null], answers [undefined] when [o] has
    no such key. *)
Variable get_property : json -> str -> result json.

(** The keys [for (let key in o)] visits, in its order; none when [o] is
    [undefined]. *)
Variable for_in_keys : json -> list str.

(** [fs.readFileSync(path, 'utf8')] on the file system of the run. *)
Variable readFileSync : str -> result str.

(** [readFile] *)
Definition readFile (path : str) : result str :=
  rbind (readFileSync path) (fun content =>
  Ok content).

(** [getInstalledModules] *)
Definition getInstalledModules : result (list ModuleRef) :=
  rbind (readFile (lit "package.json")) (fun text =>
  rbind (JSON_parse text) (fun content =>
  let installedModules := [] in
  rbind (get_property content (lit "dependencies")) (fun dependencies =>
  let installedModules :=
    fold_left (fun installedModules key =>
                 installedModules ++ [mkModule key false])
              (for_in_keys dependencies) installedModules in
  rbind (get_property content (lit "devDependencies"))
        (fun devDependencies =>
  let installedModules :=
    fold_left (fun installedModules key =>
                 installedModules ++ [mkModule key true])
              (for_in_keys devDependencies) installedModules in
  Ok installedModules)))).

End Manifest.

(** What the loop of [getModulesFromFile] makes of one match: [require]
    removed, then two units cut in front and two at the end. *)
Definition strip_call (match_ : str) : str :=
  let match_ := replace match_ (lit "require") (lit "") in
  let match_ := substring_from match_ 2 in
  substring match_ 0 (Z.of_nat (length match_) - 2).

(** A manifest, for the examples, already parsed: the keys of its two
    sections. *)
Record manifest_keys := mkManifest {
  dependencies_keys : list str;
  devDependencies_keys : list str
}.

Inductive parsed :=
| PObject (m : manifest_keys)
| PKeys (keys : list str).

Definition get_property_parsed (o : parsed) (key : str) : result parsed :=
  match o with
  | PObject m =>
      if JsString.eqb key (lit "dependencies")
      then Ok (PKeys (dependencies_keys m))
      else if JsString.eqb key (lit "devDependencies")
           then Ok (PKeys (devDependencies_keys m))
           else Ok (PKeys [])
  | PKeys _ => Ok (PKeys [])
  end.

Definition for_in_keys_parsed (o : parsed) : list str :=
  match o with
  | PObject _ => [lit "dependencies"; lit "devDependencies"]
  | PKeys keys => keys
  end.

(** A registry, for the examples, that cannot be reached. *)
Definition request_unreachable :
  str -> str -> (value -> value -> value -> result value) -> result value :=
  fun method url callback => Throw IOError.

(** A project, for the examples: two source files, one of them a test. *)
Definition glob_two_files : str -> GlobOptions -> list str :=
  fun pattern options => [lit "index.js"; lit "index.test.js"].

Definition fs_two_files : str -> result str :=
  fun path =>
    if JsString.eqb path (lit "index.js")
    then Ok (lit "const _ = require('lodash');")
    else if JsString.eqb path (lit "index.test.js")
         then Ok (lit "require('mocha'); require('lodash');")
         else Throw IOError.

(** The same project when the test file cannot be read. *)
Definition fs_test_unreadable : str -> result str :=
  fun path =>
    if JsString.eqb path (lit "index.js")
    then Ok (lit "const _ = require('lodash');")
    else Throw IOError.

(* ================================================================== *)
(** ** The embedding at work *)
(* ================================================================== *)

Example substring_clamps_negative_end :
  substring (lit "abc") 0 (-2) = lit "".
Proof. reflexivity. Qed.

Example substring_swaps_its_ends :
  substring (lit "abcdef") 4 1 = lit "bcd".
Proof. reflexivity. Qed.

Example replace_first_occurrence_only :
  replace (lit "require(require)") (lit "require") (lit "") = lit "(require)".
Proof. reflexivity. Qed.

Example indexOf_relative_markers :
  JsString.indexOf (lit "./utils") (lit "./") = 0%Z
  /\ JsString.indexOf (lit "../utils") (lit "./") = 1%Z
  /\ JsString.indexOf (lit "utils") (lit "./") = (-1)%Z.
Proof. repeat split; reflexivity. Qed.

Example match_without_call_is_null :
  String_match (lit "const x = 1;") pattern = None.
Proof. reflexivity. Qed.

Example match_is_lazy :
  String_match (lit "f(require(a)) + g(b)") pattern
  = Some [lit "require(a)"].
Proof. reflexivity. Qed.

Example match_stops_at_line_break :
  String_match (lit "require(a" ++ [10%N] ++ lit ") require(b)") pattern
  = Some [lit "require(b)"].
Proof. reflexivity. Qed.

Example test_of_undefined :
  test isValidModule_regex (ToString VUndefined) = true.
Proof. reflexivity. Qed.

Example first_occurrences_keeps_order :
  first_occurrences
    [mkModule (lit "b") false; mkModule (lit "a") false;
     mkModule (lit "b") true; mkModule (lit "c") false;
     mkModule (lit "a") true]
  = [mkModule (lit "b") false; mkModule (lit "a") false;
     mkModule (lit "c") false].
Proof. reflexivity. Qed.

Example isTestFile_suffixes :
  isTestFile (lit "src/a.spec.js") = true
  /\ isTestFile (lit "src/a.test.js") = true
  /\ isTestFile (lit "src/a.js") = false.
Proof. repeat split; reflexivity. Qed.

(* ================================================================== *)
(** ** Facts about strings and the matcher *)
(* ================================================================== *)

Lemma str_eqb_spec (a b : str) : reflect (a = b) (JsString.eqb a b).
Proof.
  revert b; induction a as [|x a IH]; intros [|y b]; simpl;
    try (constructor; congruence).
  destruct (N.eqb_spec x y) as [->|Hne]; simpl.
  - destruct (IH b) as [->|Hne]; constructor; congruence.
  - constructor; congruence.
Qed.

Lemma str_eqb_refl (a : str) : JsString.eqb a a = true.
Proof. destruct (str_eqb_spec a a); congruence. Qed.

Lemma str_eq_dec (a b : str) : {a = b} + {a <> b}.
Proof. destruct (str_eqb_spec a b); [left | right]; assumption. Qed.

Lemma repeat_greedy_to_end (a : atom) (s : str) :
  forall min idx,
    repeat_matcher a true min (matcher REol finish) idx s
    = if (min <=? length s)%nat && forallb (atom_matches a) s
      then Some (idx + length s)%nat
      else None.
Proof.
  induction s as [|c s IH]; intros min idx.
  - destruct min; simpl; [unfold finish; f_equal; lia | reflexivity].
  - destruct min as [|min]; cbn [repeat_matcher forallb]; rewrite IH;
      destruct (atom_matches a c); cbn [andb matcher];
      rewrite ?andb_false_r; try reflexivity.
    + change (0 <=? length s)%nat with true.
      change (0 <=? length (c :: s))%nat with true. cbn [andb].
      destruct (forallb (atom_matches a) s); [f_equal; simpl; lia | reflexivity].
    + change (S min <=? length (c :: s))%nat with (min <=? length s)%nat.
      destruct ((min <=? length s)%nat && forallb (atom_matches a) s);
        [f_equal; simpl; lia | reflexivity].
Qed.

Lemma search_bol_later (r : regex) (s : str) :
  forall idx, (0 < idx)%nat -> search (RSeq RBol r) idx s = None.
Proof.
  induction s as [|c s IH]; intros idx Hidx;
    destruct idx as [|idx]; try lia; simpl; unfold match_at; simpl.
  - reflexivity.
  - apply IH; lia.
Qed.

Lemma test_anchored (r : regex) (s : str) :
  test (RSeq RBol r) s
  = match matcher r finish 0 s with Some _ => true | None => false end.
Proof.
  unfold test. destruct s as [|c s]; unfold search; fold search;
    unfold match_at; cbn [matcher Nat.eqb]; fold finish;
    destruct (matcher r finish 0 _); try reflexivity.
  rewrite search_bol_later by lia. reflexivity.
Qed.

Lemma name_class_char (c : N) :
  atom_matches (Class [CRange (ch "a") (ch "z"); CRange (ch "0") (ch "9");
                       CChar (ch "-"); CChar (ch "_")]) c
  = name_char c.
Proof.
  unfold name_char; cbn [atom_matches existsb item_matches].
  rewrite (N.eqb_sym (ch "-") c), (N.eqb_sym (ch "_") c).
  rewrite orb_false_r, !orb_assoc. reflexivity.
Qed.

Lemma forallb_pointwise (A : Type) (f g : A -> bool) (l : list A) :
  (forall x, f x = g x) -> forallb f l = forallb g l.
Proof.
  intros Hfg; induction l as [|x l IH]; simpl; [|rewrite Hfg, IH]; reflexivity.
Qed.

Lemma test_isValidModule_regex (s : str) :
  test isValidModule_regex s = matches_name_pattern s.
Proof.
  unfold isValidModule_regex. rewrite test_anchored.
  cbn [matcher]. rewrite repeat_greedy_to_end.
  rewrite (forallb_pointwise _ _ s name_class_char).
  destruct s as [|c s]; [reflexivity|].
  change (1 <=? length (c :: s))%nat with true.
  cbn [andb matches_name_pattern].
  destruct (forallb name_char (c :: s)); reflexivity.
Qed.

(* ================================================================== *)
(** ** Validation *)
(* ================================================================== *)

(** On a record with a [name] field the test decides [^[a-z0-9-_]+$]
    (at least one unit, each a lowercase letter, a digit, a hyphen or an
    underscore), whatever the [dev] flag. *)
Lemma isValidModule_of_record (m : ModuleRef) :
  isValidModule (VModule m) = Ok (matches_name_pattern (name m)).
Proof.
  unfold isValidModule. cbn [destructure_name_dev rbind ToString].
  rewrite test_isValidModule_regex. reflexivity.
Qed.

(** C1 (the code departs from it). Handed a name, as [getModulesFromFile]
    hands it one, [isValidModule] answers [true] for every string: its
    parameter pattern reads [.name] of the string, which is [undefined],
    and the test runs on the text [undefined].  So the names [Foo],
    [@scope/pkg], [../x] and the empty name are accepted where they were
    to be rejected ([lodash] and [my-lib_2] are accepted too).  The test
    decides the pattern only on a record that has a [name] field. *)
Theorem isValidModule_accepts_every_string :
  (forall s : str, isValidModule (VStr s) = Ok true)
  /\ isValidModule (VStr (lit "Foo")) = Ok true
  /\ isValidModule (VStr (lit "@scope/pkg")) = Ok true
  /\ isValidModule (VStr (lit "../x")) = Ok true
  /\ isValidModule (VStr (lit "")) = Ok true
  /\ isValidModule (VStr (lit "lodash")) = Ok true
  /\ isValidModule (VStr (lit "my-lib_2")) = Ok true
  /\ (forall m : ModuleRef,
         isValidModule (VModule m) = Ok (matches_name_pattern (name m))).
Proof.
  repeat split; try reflexivity. exact isValidModule_of_record.
Qed.

(* ================================================================== *)
(** ** Facts about arrays of names *)
(* ================================================================== *)

Lemma Array_indexOf_from_range (l : list str) (x : str) :
  forall i, (0 <= i)%Z ->
    (In x l -> (i <= Array_indexOf_from l x i)%Z)
    /\ (~ In x l -> Array_indexOf_from l x i = (-1)%Z).
Proof.
  induction l as [|y l IH]; intros i Hi; simpl.
  - split; [intros [] | reflexivity].
  - destruct (str_eqb_spec y x) as [->|Hne].
    + split; [lia | intros H; exfalso; apply H; left; reflexivity].
    + destruct (IH (i + 1)%Z ltac:(lia)) as [Hin Hnot]. split.
      * intros [Heq|HIn]; [congruence | specialize (Hin HIn); lia].
      * intros H. apply Hnot. intros HIn. apply H. right. exact HIn.
Qed.

Lemma Array_indexOf_absent (l : list str) (x : str) :
  (Array_indexOf l x =? -1)%Z = negb (if in_dec str_eq_dec x l then true else false).
Proof.
  unfold Array_indexOf.
  destruct (Array_indexOf_from_range l x (i := 0) ltac:(lia)) as [Hin Hnot].
  destruct (in_dec str_eq_dec x l) as [HIn|HIn]; simpl.
  - apply Z.eqb_neq. specialize (Hin HIn). lia.
  - apply Z.eqb_eq. auto.
Qed.

Lemma Array_indexOf_negative (l : list str) (x : str) :
  (Array_indexOf l x <? 0)%Z = (Array_indexOf l x =? -1)%Z.
Proof.
  unfold Array_indexOf.
  destruct (Array_indexOf_from_range l x (i := 0) ltac:(lia)) as [Hin Hnot].
  destruct (in_dec str_eq_dec x l) as [HIn|HIn].
  - specialize (Hin HIn).
    transitivity false; [apply Z.ltb_ge | symmetry; apply Z.eqb_neq]; lia.
  - rewrite (Hnot HIn). reflexivity.
Qed.

Lemma name_occurs_In (x : str) (l : list ModuleRef) :
  name_occurs x l = true <-> In x (getNamesFromModules l).
Proof.
  unfold name_occurs, getNamesFromModules. rewrite existsb_exists, in_map_iff.
  split; intros (m & H1 & H2).
  - destruct (str_eqb_spec (name m) x); [eauto | discriminate].
  - exists m. subst x. rewrite str_eqb_refl. auto.
Qed.

Lemma Array_indexOf_names (l : list ModuleRef) (x : str) :
  (Array_indexOf (getNamesFromModules l) x <? 0)%Z = negb (name_occurs x l).
Proof.
  rewrite Array_indexOf_negative, Array_indexOf_absent. f_equal.
  destruct (in_dec str_eq_dec x (getNamesFromModules l)) as [HIn|HIn];
    destruct (name_occurs x l) eqn:E; try reflexivity.
  - apply name_occurs_In in HIn. congruence.
  - apply name_occurs_In in E. contradiction.
Qed.

Lemma filter_pointwise (A : Type) (f g : A -> bool) (l : list A) :
  (forall x, f x = g x) -> filter f l = filter g l.
Proof.
  intros Hfg; induction l as [|x l IH]; simpl; [|rewrite Hfg, IH]; reflexivity.
Qed.

Lemma diff_filter (a b : list ModuleRef) :
  diff a b = filter (fun m => negb (name_occurs (name m) b)) a.
Proof.
  unfold diff. apply filter_pointwise. intros m. apply Array_indexOf_names.
Qed.

(* ================================================================== *)
(** ** Diffing *)
(* ================================================================== *)

(** C4. [diff a b] is [a] filtered, in order, down to the elements whose
    name is not the name of an element of [b]; the elements returned are
    elements of [a] (with the [dev] flag they have there); only the names
    of [b] matter, not its [dev] flags.  Over the names a, b, c against
    b, c the result is the element named a, and the other way round it is
    empty, whatever the flags. *)
Theorem diff_by_name_only :
  (forall a b : list ModuleRef,
      diff a b = filter (fun m => negb (name_occurs (name m) b)) a)
  /\ (forall a b m, In m (diff a b) -> In m a)
  /\ (forall a b b',
         getNamesFromModules b = getNamesFromModules b' ->
         diff a b = diff a b')
  /\ (forall d1 d2 d3 d4 d5 : bool,
         diff [mkModule (lit "a") d1; mkModule (lit "b") d2;
               mkModule (lit "c") d3]
              [mkModule (lit "b") d4; mkModule (lit "c") d5]
         = [mkModule (lit "a") d1]
         /\ diff [mkModule (lit "b") d4; mkModule (lit "c") d5]
                 [mkModule (lit "a") d1; mkModule (lit "b") d2;
                  mkModule (lit "c") d3]
            = []).
Proof.
  split; [exact diff_filter|]. split; [|split].
  - intros a b m H. unfold diff in H. apply filter_In in H. tauto.
  - intros a b b' H. unfold diff. rewrite H. reflexivity.
  - intros d1 d2 d3 d4 d5. split; reflexivity.
Qed.

(** C9. When the declared modules and the used modules carry the same set
    of names, both differences are empty: nothing to install, nothing to
    remove. *)
Theorem diff_same_names_empty (used declared : list ModuleRef) :
  (forall x, In x (getNamesFromModules used)
             <-> In x (getNamesFromModules declared)) ->
  diff used declared = [] /\ diff declared used = [].
Proof.
  intros Hsame.
  assert (Hempty : forall a b : list ModuleRef,
             (forall x, In x (getNamesFromModules a)
                        -> In x (getNamesFromModules b)) ->
             diff a b = []).
  { intros a b Hsub. rewrite diff_filter.
    induction a as [|m a IH]; [reflexivity|]. simpl.
    assert (Hm : name_occurs (name m) b = true).
    { apply name_occurs_In. apply Hsub. left. reflexivity. }
    rewrite Hm. simpl. apply IH. intros x Hx. apply Hsub. right. exact Hx. }
  split; apply Hempty; intros x Hx; apply Hsame; exact Hx.
Qed.

Lemma diff_same_names_empty_witness :
  diff [mkModule (lit "lodash") false; mkModule (lit "chalk") true;
        mkModule (lit "lodash") true]
       [mkModule (lit "chalk") false; mkModule (lit "lodash") false] = []
  /\ diff [mkModule (lit "chalk") false; mkModule (lit "lodash") false]
          [mkModule (lit "lodash") false; mkModule (lit "chalk") true;
           mkModule (lit "lodash") true] = [].
Proof.
  apply diff_same_names_empty.
  intros x; simpl; tauto.
Defined.

(* ================================================================== *)
(** ** De-duplication *)
(* ================================================================== *)

Lemma deduplicate_loop (t : list ModuleRef) :
  forall out names,
    fold_left
      (fun '(dedupedModules, dedupedModuleNames) module =>
         if (Array_indexOf dedupedModuleNames (name module) =? -1)%Z
         then (dedupedModules ++ [module],
               dedupedModuleNames ++ [name module])
         else (dedupedModules, dedupedModuleNames))
      t (out, names)
    = (out ++ keep_unseen names t,
       names ++ getNamesFromModules (keep_unseen names t)).
Proof.
  induction t as [|m t IH]; intros out names; simpl.
  - rewrite !app_nil_r. reflexivity.
  - destruct (Array_indexOf names (name m) =? -1)%Z.
    + rewrite IH. simpl. rewrite <- !app_assoc. reflexivity.
    + apply IH.
Qed.

Lemma deduplicateSimilarModules_keep (p : list ModuleRef) :
  deduplicateSimilarModules p = keep_unseen [] p.
Proof.
  unfold deduplicateSimilarModules. rewrite deduplicate_loop. reflexivity.
Qed.

Lemma firstn_length_app (A : Type) (l r : list A) :
  firstn (length l) (l ++ r) = l.
Proof. induction l as [|x l IH]; simpl; [destruct r|rewrite IH]; reflexivity. Qed.

Lemma keep_unseen_by_index (t : list ModuleRef) :
  forall pre seen,
    (forall x, In x seen <-> In x (getNamesFromModules pre)) ->
    keep_unseen seen t
    = map snd
        (filter (fun '(i, m) =>
                   negb (name_occurs (name m) (firstn i (pre ++ t))))
                (combine (seq (length pre) (length t)) t)).
Proof.
  induction t as [|m t IH]; intros pre seen Hseen; [reflexivity|].
  cbn [keep_unseen length seq combine filter].
  rewrite firstn_length_app, Array_indexOf_absent.
  assert (Hnext : forall seen',
             (forall x, In x seen'
                        <-> In x (getNamesFromModules (pre ++ [m]))) ->
             keep_unseen seen' t
             = map snd
                 (filter (fun '(i, m0) =>
                            negb (name_occurs (name m0)
                                              (firstn i (pre ++ m :: t))))
                         (combine (seq (S (length pre)) (length t)) t))).
  { intros seen' Hseen'. rewrite (IH (pre ++ [m]) seen' Hseen').
    rewrite <- app_assoc, length_app. simpl.
    replace (length pre + 1)%nat with (S (length pre)) by lia. reflexivity. }
  assert (Hnames : forall x, In x (getNamesFromModules (pre ++ [m]))
                             <-> In x (getNamesFromModules pre) \/ x = name m).
  { intros x. unfold getNamesFromModules. rewrite map_app, in_app_iff. simpl.
    intuition congruence. }
  destruct (in_dec str_eq_dec (name m) seen) as [HIn|HIn]; simpl.
  - assert (Hocc : name_occurs (name m) pre = true)
      by (apply name_occurs_In, Hseen, HIn).
    rewrite Hocc. simpl. apply Hnext. intros x. rewrite Hnames, <- Hseen.
    split; [tauto | intros [H| ->]; assumption].
  - assert (Hocc : name_occurs (name m) pre = false).
    { destruct (name_occurs (name m) pre) eqn:E; [|reflexivity].
      apply name_occurs_In, Hseen in E. contradiction. }
    rewrite Hocc. simpl. f_equal. apply Hnext. intros x.
    rewrite Hnames, <- Hseen, in_app_iff. simpl. intuition congruence.
Qed.

Lemma deduplicateSimilarModules_first_occurrences (p : list ModuleRef) :
  deduplicateSimilarModules p = first_occurrences p.
Proof.
  rewrite deduplicateSimilarModules_keep.
  apply (keep_unseen_by_index p [] []).
  intros x; simpl; tauto.
Qed.

Lemma keep_unseen_sound (t : list ModuleRef) :
  forall seen,
    NoDup (getNamesFromModules (keep_unseen seen t))
    /\ (forall m, In m (keep_unseen seen t)
                  -> In m t /\ ~ In (name m) seen).
Proof.
  induction t as [|m t IH]; intros seen; simpl.
  - split; [constructor | intros ? []].
  - rewrite Array_indexOf_absent.
    destruct (in_dec str_eq_dec (name m) seen) as [HIn|HIn]; simpl.
    + destruct (IH seen) as [Hnd Hin]. split; [exact Hnd|].
      intros m' Hm'. destruct (Hin m' Hm'). auto.
    + destruct (IH (seen ++ [name m])) as [Hnd Hin]. split.
      * constructor; [|exact Hnd]. unfold getNamesFromModules.
        rewrite in_map_iff. intros (m' & Heq & Hm').
        destruct (Hin m' Hm') as [_ Hno]. apply Hno.
        rewrite in_app_iff. right. left. congruence.
      * intros m' [<-|Hm']; [auto|].
        destruct (Hin m' Hm') as [Ht Hno]. split; [auto|].
        intros Hs. apply Hno. rewrite in_app_iff. left. exact Hs.
Qed.

Lemma NoDup_name_dev (l : list ModuleRef) :
  NoDup (getNamesFromModules l) ->
  NoDup (map (fun m => (name m, dev m)) l).
Proof.
  intros H. apply (NoDup_map_inv fst). rewrite map_map. exact H.
Qed.

(** C5. [deduplicate] splits its input by the [dev] flag, keeps in each
    part the first occurrence of every name, in input order, and returns
    the development part followed by the production part; so no two
    entries of its output agree on both name and flag, and on
    [{a,false},{a,false},{a,true}] it returns [{a,true},{a,false}]. *)
Theorem deduplicate_first_occurrences :
  (forall modules : list ModuleRef,
      deduplicate modules
      = first_occurrences (filter (fun m => dev m) modules)
          ++ first_occurrences (filter (fun m => negb (dev m)) modules))
  /\ (forall modules : list ModuleRef,
         NoDup (map (fun m => (name m, dev m)) (deduplicate modules)))
  /\ deduplicate [mkModule (lit "a") false; mkModule (lit "a") false;
                  mkModule (lit "a") true]
     = [mkModule (lit "a") true; mkModule (lit "a") false].
Proof.
  split; [|split].
  - intros modules. unfold deduplicate.
    rewrite !deduplicateSimilarModules_first_occurrences. reflexivity.
  - intros modules. unfold deduplicate. cbn [app].
    rewrite !deduplicateSimilarModules_keep, map_app.
    set (test := filter (fun m => dev m) modules).
    set (prod := filter (fun m => negb (dev m)) modules).
    destruct (keep_unseen_sound test []) as [Hnd1 Hin1].
    destruct (keep_unseen_sound prod []) as [Hnd2 Hin2].
    apply NoDup_app; [apply NoDup_name_dev, Hnd1 | apply NoDup_name_dev, Hnd2 |].
    intros [x d] H1 H2.
    apply in_map_iff in H1. destruct H1 as (m1 & E1 & H1).
    apply in_map_iff in H2. destruct H2 as (m2 & E2 & H2).
    apply Hin1 in H1. destruct H1 as [H1 _]. apply filter_In in H1.
    apply Hin2 in H2. destruct H2 as [H2 _]. apply filter_In in H2.
    destruct H1 as [_ H1], H2 as [_ H2].
    assert (Hd1 : dev m1 = d) by congruence.
    assert (Hd2 : dev m2 = d) by congruence.
    rewrite Hd1 in H1. rewrite Hd2, H1 in H2. discriminate.
  - reflexivity.
Qed.

(* ================================================================== *)
(** ** Facts about the scan for [require] calls *)
(* ================================================================== *)

Lemma starts_with_app (p t : str) : starts_with p (p ++ t) = true.
Proof.
  induction p as [|x p IH]; simpl; [reflexivity|].
  rewrite N.eqb_refl, IH. reflexivity.
Qed.

Lemma starts_with_inv (p s : str) :
  starts_with p s = true -> exists t, s = p ++ t.
Proof.
  revert s; induction p as [|x p IH]; intros s H; simpl in *.
  - exists s. reflexivity.
  - destruct s as [|y s]; [discriminate|].
    apply andb_true_iff in H. destruct H as [Hxy Hp].
    apply N.eqb_eq in Hxy. subst y.
    destruct (IH s Hp) as [t ->]. exists t. reflexivity.
Qed.

Lemma matcher_chars (p : str) (k : cont) :
  forall idx s,
    matcher (chars p) k idx s
    = if starts_with p s then k (idx + length p)%nat (skipn (length p) s)
      else None.
Proof.
  induction p as [|x p IH]; intros idx s; simpl.
  - rewrite Nat.add_0_r. reflexivity.
  - destruct s as [|y s]; [reflexivity|].
    destruct (N.eqb x y); simpl; [|reflexivity].
    rewrite IH. replace (S idx + length p)%nat with (idx + S (length p))%nat by lia.
    reflexivity.
Qed.

(** The tail [(.*?)\)] of the pattern. *)
Lemma pattern_unfold (idx : nat) (s : str) :
  match_at pattern idx s
  = if starts_with (lit "require(") s
    then repeat_matcher Dot false 0
           (matcher (RAtom (Lit (ch ")"))) finish)
           (idx + 8)%nat (skipn 8 s)
    else None.
Proof.
  unfold match_at.
  change (matcher pattern finish idx s)
    with (matcher (chars (lit "require("))
            (repeat_matcher Dot false 0
               (matcher (RAtom (Lit (ch ")"))) finish)) idx s).
  rewrite matcher_chars. reflexivity.
Qed.

Lemma lazy_until_paren (b rest : str) :
  forallb (fun c => negb (line_terminator c) && negb (ch ")" =? c)%N) b = true ->
  forall idx,
    repeat_matcher Dot false 0 (matcher (RAtom (Lit (ch ")"))) finish)
                   idx (b ++ ch ")" :: rest)
    = Some (idx + length b + 1)%nat.
Proof.
  induction b as [|c b IH]; intros Hb idx.
  - cbn [app repeat_matcher matcher atom_matches]. rewrite N.eqb_refl.
    unfold finish. f_equal. simpl. lia.
  - cbn [forallb] in Hb. apply andb_true_iff in Hb. destruct Hb as [Hc Hb].
    apply andb_true_iff in Hc. destruct Hc as [Hlt Hparen].
    cbn [app repeat_matcher matcher atom_matches].
    apply negb_true_iff in Hparen. rewrite Hparen, Hlt.
    rewrite (IH Hb). f_equal. simpl. lia.
Qed.




Lemma indexOf_from_shift (p s : str) :
  forall i,
    (indexOf_from p s i = (-1)%Z /\ indexOf_from p s 0 = (-1)%Z)
    \/ ((0 <= indexOf_from p s 0)%Z
        /\ indexOf_from p s i = (i + indexOf_from p s 0)%Z).
Proof.
  induction s as [|y s IH]; intros i; cbn [indexOf_from];
    destruct (starts_with p _); try (right; lia); try (left; lia).
  destruct (IH (i + 1)%Z) as [[Hi H0]|[H0 Hi]];
    destruct (IH (0 + 1)%Z) as [[H1 H0']|[H0' H1]]; lia.
Qed.

Lemma no_require_cons (c : N) (f : str) :
  no_require (c :: f) = true ->
  starts_with (lit "require(") (c :: f) = false /\ no_require f = true.
Proof.
  unfold no_require, JsString.indexOf. intros H. apply Z.eqb_eq in H.
  cbn [indexOf_from] in H.
  destruct (starts_with (lit "require(") (c :: f)); [discriminate|].
  split; [reflexivity|]. apply Z.eqb_eq.
  destruct (indexOf_from_shift (lit "require(") f (0 + 1)) as [[_ H0]|[H0 H1]];
    [exact H0 | lia].
Qed.

(** An occurrence of [require(] cannot begin in text that holds none and
    end in a [require(] that follows it. *)
Lemma no_straddle (c : N) (f rest : str) :
  no_require (c :: f) = true ->
  rest = [] \/ starts_with (lit "require(") rest = true ->
  starts_with (lit "require(") ((c :: f) ++ rest) = false.
Proof.
  intros Hf Hrest.
  destruct (starts_with (lit "require(") ((c :: f) ++ rest)) eqn:E;
    [exfalso | reflexivity].
  apply no_require_cons in Hf. destruct Hf as [Hhead _].
  apply starts_with_inv in E. destruct E as [t E].
  assert (Hr : rest = [] \/ exists u, rest = lit "require(" ++ u).
  { destruct Hrest as [->|Hr]; [left; reflexivity|].
    right. apply starts_with_inv. exact Hr. }
  clear Hrest.
  change (lit "require(") with [114; 101; 113; 117; 105; 114; 101; 40]%N in *.
  destruct f as [|c2 [|c3 [|c4 [|c5 [|c6 [|c7 [|c8 f]]]]]]];
    try (destruct Hr as [->|[u ->]]; cbn [app] in E; congruence).
  cbn [app] in E. injection E as -> -> -> -> -> -> -> -> _.
  simpl in Hhead. discriminate.
Qed.

Lemma match_all_leading_text (f : str) :
  forall rest idx,
    no_require f = true ->
    rest = [] \/ starts_with (lit "require(") rest = true ->
    match_all pattern 0 idx (f ++ rest)
    = match_all pattern 0 (idx + length f) rest.
Proof.
  induction f as [|c f IH]; intros rest idx Hf Hrest.
  - simpl. rewrite Nat.add_0_r. reflexivity.
  - change (match_all pattern 0 idx ((c :: f) ++ rest))
      with (match match_at pattern idx ((c :: f) ++ rest) with
            | Some e =>
                firstn (e - idx) ((c :: f) ++ rest)
                  :: match_all pattern (e - idx - 1) (S idx) (f ++ rest)
            | None => match_all pattern 0 (S idx) (f ++ rest)
            end).
    rewrite pattern_unfold, (no_straddle _ _ Hf Hrest).
    apply no_require_cons in Hf. destruct Hf as [_ Hf].
    rewrite (IH rest (S idx) Hf Hrest). f_equal. simpl. lia.
Qed.

Lemma match_all_skip (r : regex) (a : str) :
  forall rest idx,
    match_all r (length a) idx (a ++ rest)
    = match_all r 0 (idx + length a) rest.
Proof.
  induction a as [|c a IH]; intros rest idx; simpl.
  - rewrite Nat.add_0_r. reflexivity.
  - rewrite IH. f_equal. lia.
Qed.



Lemma substring_in_range (s : str) (a b : Z) :
  (0 <= a <= b)%Z -> (b <= Z.of_nat (length s))%Z ->
  substring s a b = firstn (Z.to_nat (b - a)) (skipn (Z.to_nat a) s).
Proof.
  intros Hab Hb. unfold substring, clamp.
  replace (Z.max 0 (Z.min a (Z.of_nat (length s)))) with a by lia.
  replace (Z.max 0 (Z.min b (Z.of_nat (length s)))) with b by lia.
  replace (Z.min a b) with a by lia.
  replace (Z.max a b) with b by lia.
  reflexivity.
Qed.

Lemma isValidModule_of_string (s : str) : isValidModule (VStr s) = Ok true.
Proof. reflexivity. Qed.



(* ================================================================== *)
(** ** Extraction *)
(* ================================================================== *)

(** C2 (the code departs from it). For a file whose only text is
    [require(someVariable)], [getModulesFromFile] returns the one name
    [omeVariabl]: the call is matched, two units are cut at each end, and
    the validator, handed a string where it reads [.name], tests the text
    [undefined] and accepts; it does so for every string. *)
Theorem getModulesFromFile_require_variable :
  (forall s : str, isValidModule (VStr s) = Ok true)
  /\ (forall path : str,
         getModulesFromFile
           (fun _ => Ok (lit "require(someVariable)")) path
         = Ok [lit "omeVariabl"]).
Proof.
  split; [exact isValidModule_of_string | intros path; reflexivity].
Qed.

(** C3 (the code departs from it). A file with exactly one well-formed
    call, [require("lodash")], and a stray [require(x)] in front of it, or
    the text [require()] in a comment above it, yields two names, the
    empty name and [lodash]: the stray text is matched, cut down to the
    empty string, and accepted by the validator like every string. *)
Theorem getModulesFromFile_stray_call (path : str) :
  getModulesFromFile
    (fun _ => Ok (lit "require(x); var a = "
                    ++ require_call double_quote (lit "lodash") ++ lit ";"))
    path
  = Ok [lit ""; lit "lodash"]
  /\ getModulesFromFile
       (fun _ => Ok (lit "// see require() docs" ++ [10%N]
                       ++ lit "var a = "
                       ++ require_call double_quote (lit "lodash")
                       ++ lit ";"))
       path
     = Ok [lit ""; lit "lodash"].
Proof. split; reflexivity. Qed.



(* ================================================================== *)
(** ** Classification *)
(* ================================================================== *)

Lemma filterRegistryModules_filter
      (isBuiltInModule : str -> bool) (modules : list ModuleRef) :
  filterRegistryModules isBuiltInModule modules
  = filter (fun m => negb (isBuiltInModule (name m))
                     && negb (starts_with (lit "./") (name m)))
           modules.
Proof.
  unfold filterRegistryModules, removeLocalFiles, removeBuiltInModules.
  induction modules as [|m modules IH]; [reflexivity|].
  cbn [filter]. destruct (isBuiltInModule (name m)); cbn [negb andb].
  - exact IH.
  - cbn [filter]. rewrite IH. unfold JsString.indexOf.
    assert (Hidx : (indexOf_from (lit "./") (name m) 0 =? 0)%Z
                   = starts_with (lit "./") (name m)).
    { destruct (name m) as [|c s]; cbn [indexOf_from];
        destruct (starts_with (lit "./") _); try reflexivity.
      destruct (indexOf_from_shift (lit "./") s (0 + 1)) as [[H _]|[H0 H]];
        rewrite H; apply Z.eqb_neq; lia. }
    rewrite Hidx. reflexivity.
Qed.

(** C6 (the code departs from it). A module whose name begins with the
    parent-directory marker [../] passes [filterRegistryModules] whenever
    it is not a built-in name: only names that begin with [./] are taken
    for local files.  The built-in [fs] and the local [./utils] next to it
    are removed. *)
Theorem filterRegistryModules_keeps_parent_path
        (isBuiltInModule : str -> bool) (d : bool) :
  isBuiltInModule (lit "../utils") = false ->
  isBuiltInModule (lit "fs") = true ->
  filterRegistryModules isBuiltInModule
    [mkModule (lit "fs") d; mkModule (lit "./utils") d;
     mkModule (lit "../utils") d]
  = [mkModule (lit "../utils") d].
Proof.
  intros Hparent Hfs. rewrite filterRegistryModules_filter.
  cbn [filter name]. rewrite Hparent, Hfs. cbn [negb andb].
  destruct (isBuiltInModule (lit "./utils")); reflexivity.
Qed.

Lemma filterRegistryModules_keeps_parent_path_witness :
  filterRegistryModules isBuiltInModule_node
    [mkModule (lit "fs") false; mkModule (lit "./utils") false;
     mkModule (lit "../utils") false]
  = [mkModule (lit "../utils") false].
Proof.
  apply (filterRegistryModules_keeps_parent_path isBuiltInModule_node false);
    reflexivity.
Defined.

(* ================================================================== *)
(** ** File discovery *)
(* ================================================================== *)

(** C10. [getFiles] does not look at its argument: any two arguments give
    the same list, the one [glob.sync] returns for the fixed pattern of
    all [.js] files below the working directory with [node_modules]
    ignored. *)
Theorem getFiles_ignores_path
        (glob_sync : str -> GlobOptions -> list str) (p1 p2 : value) :
  getFiles glob_sync p1 = getFiles glob_sync p2
  /\ getFiles glob_sync p1
     = glob_sync (lit "**/*.js") {| ignore := [lit "node_modules/**/*"] |}.
Proof. split; reflexivity. Qed.

(* ================================================================== *)
(** ** Apply actions *)
(* ================================================================== *)

(** C7 (the code departs from it). [isModulePopular] never returns a
    boolean: when it returns, it returns [undefined], whatever the
    registry answers and whatever the function it hands to [request]
    computes.  So in secure mode [installModule] runs no command for any
    module; with a registry that reports fifty million downloads it still
    prints that [lodash] is not trusted. *)
Theorem isModulePopular_returns_undefined :
  (forall request body_downloads arg,
      match isModulePopular request body_downloads arg with
      | Ok v => v = VUndefined
      | Throw _ => True
      end)
  /\ (forall syncExec request body_downloads m,
         forallb (fun e => negb (is_Exec e))
                 (snd (run (installModule syncExec request body_downloads
                                          true (VModule m))))
         = true)
  /\ (forall syncExec,
         run (installModule syncExec request_answering
                            downloads_fifty_million true
                            (VModule (mkModule (lit "lodash") false)))
         = (Ok tt,
            [SpinnerStart (lit "Installing lodash") (lit "green");
             SpinnerStop;
             ConsoleLog SymWarning (lit "lodash not trusted")])).
Proof.
  split; [|split].
  - intros request body_downloads arg. unfold isModulePopular.
    destruct arg; cbn [destructure_name_dev rbind]; try exact I;
      match goal with
      | |- context [request ?a ?b ?c] => destruct (request a b c)
      end; cbn [rbind]; trivial.
  - intros syncExec request body_downloads [n d].
    unfold run, installModule, bind, lift, ret, startSpinner, emit,
      isModulePopular, stopSpinner.
    cbn [destructure_name_dev rbind ToString app name dev].
    match goal with
    | |- context [request ?a ?b ?c] => destruct (request a b c)
    end; destruct n; reflexivity.
  - intros syncExec. reflexivity.
Qed.

(** C8 (the code departs from it). [uninstallModule] prints that the
    module was removed whatever the exit status of its command: its trace
    does not depend on [sync-exec]'s answer, and with a package manager
    whose commands all fail it still reports [lodash removed].
    [installModule], outside secure mode, does report the failure of its
    command, and only then. *)
Theorem uninstallModule_ignores_status :
  (forall syncExec m,
      run (uninstallModule syncExec (VModule m))
      = (Ok tt,
         [SpinnerStart (lit "Uninstalling " ++ name m) (lit "red");
          Exec (if dev m
                then (lit "npm uninstall " ++ name m ++ lit " --save")
                       ++ lit "-dev"
                else lit "npm uninstall " ++ name m ++ lit " --save");
          SpinnerStop;
          ConsoleLog SymError
                     (if dev m
                      then (name m ++ lit " removed")
                             ++ lit " from devDependencies"
                      else name m ++ lit " removed")]))
  /\ run (uninstallModule syncExec_failing
                          (VModule (mkModule (lit "lodash") false)))
     = (Ok tt,
        [SpinnerStart (lit "Uninstalling lodash") (lit "red");
         Exec (lit "npm uninstall lodash --save");
         SpinnerStop;
         ConsoleLog SymError (lit "lodash removed")])
  /\ (forall syncExec request body_downloads m,
         let command :=
           if dev m
           then (lit "npm install " ++ name m ++ lit " --save") ++ lit "-dev"
           else lit "npm install " ++ name m ++ lit " --save" in
         let message :=
           if dev m
           then (name m ++ lit " installed") ++ lit " in devDependencies"
           else name m ++ lit " installed" in
         run (installModule syncExec request body_downloads false
                            (VModule m))
         = (Ok tt,
            [SpinnerStart (lit "Installing " ++ name m) (lit "green");
             Exec command;
             SpinnerStop;
             if (syncExec command =? 0)%Z
             then ConsoleLog SymSuccess message
             else ConsoleLog SymWarning
                             (name m ++ lit " installation failed")])).
Proof.
  split; [|split].
  - intros syncExec [n d].
    unfold run, uninstallModule, bind, lift, ret, startSpinner, runCommand,
      emit, stopSpinner.
    cbn [destructure_name_dev rbind ToString ToBoolean app name dev].
    destruct d; cbn [ToBoolean negb];
      match goal with
      | |- context [match ?s with [] => false | _ :: _ => true end] =>
          replace (match s with [] => false | _ :: _ => true end) with true
      end; try reflexivity.
    + destruct n; reflexivity.
    + destruct n; reflexivity.
  - reflexivity.
  - intros syncExec request body_downloads [n d]. cbn zeta.
    unfold run, installModule, bind, lift, ret, startSpinner, runCommand,
      emit, stopSpinner.
    cbn [destructure_name_dev rbind ToString ToBoolean app name dev].
    destruct d; cbn [ToBoolean negb];
      match goal with
      | |- context [(syncExec ?c =? 0)%Z] => destruct (syncExec c =? 0)%Z
      end; destruct n; reflexivity.
Qed.

(* ================================================================== *)
(** ** Further properties: lists of modules *)
(* ================================================================== *)

Lemma keep_unseen_complete (t : list ModuleRef) :
  forall seen m,
    In m t -> ~ In (name m) seen ->
    exists m', In m' (keep_unseen seen t) /\ name m' = name m.
Proof.
  induction t as [|m0 t IH]; intros seen m Hin Hseen; [contradiction|].
  cbn [keep_unseen]. rewrite Array_indexOf_absent.
  destruct (in_dec str_eq_dec (name m0) seen) as [H0|H0]; cbn [negb].
  - destruct Hin as [->|Hin]; [contradiction|]. apply IH; assumption.
  - destruct (str_eq_dec (name m0) (name m)) as [Heq|Hne].
    + exists m0. split; [left; reflexivity | exact Heq].
    + destruct Hin as [->|Hin]; [congruence|].
      destruct (IH (seen ++ [name m0]) m Hin) as (m' & Hm' & Hn).
      * rewrite in_app_iff. simpl. intuition congruence.
      * exists m'. split; [right; exact Hm' | exact Hn].
Qed.

Lemma keep_unseen_fixed (t : list ModuleRef) :
  forall seen,
    NoDup (getNamesFromModules t) ->
    (forall m, In m t -> ~ In (name m) seen) ->
    keep_unseen seen t = t.
Proof.
  induction t as [|m0 t IH]; intros seen Hnd Hseen; [reflexivity|].
  cbn [keep_unseen]. rewrite Array_indexOf_absent.
  destruct (in_dec str_eq_dec (name m0) seen) as [H0|H0]; cbn [negb].
  - exfalso. apply (Hseen m0); [left; reflexivity | exact H0].
  - f_equal. inversion Hnd as [|x l Hx Hl]; subst. apply IH; [exact Hl|].
    intros m Hm Hin. apply in_app_iff in Hin. destruct Hin as [Hin|[Heq|[]]].
    + apply (Hseen m); [right; exact Hm | exact Hin].
    + apply Hx. unfold getNamesFromModules. rewrite Heq.
      apply in_map. exact Hm.
Qed.

Lemma filter_none (A : Type) (f : A -> bool) (l : list A) :
  (forall x, In x l -> f x = false) -> filter f l = [].
Proof.
  induction l as [|x l IH]; intros H; [reflexivity|]. simpl.
  rewrite (H x (or_introl eq_refl)). apply IH. intros y Hy. apply H.
  right. exact Hy.
Qed.

Lemma filter_all (A : Type) (f : A -> bool) (l : list A) :
  (forall x, In x l -> f x = true) -> filter f l = l.
Proof.
  intros H. apply forallb_filter_id, forallb_forall, H.
Qed.

Lemma filter_swap (A : Type) (f g : A -> bool) (l : list A) :
  filter f (filter g l) = filter g (filter f l).
Proof.
  induction l as [|x l IH]; [reflexivity|]. simpl.
  destruct (f x) eqn:Hf, (g x) eqn:Hg; simpl; rewrite ?Hf, ?Hg, IH;
    reflexivity.
Qed.

Lemma filter_both (A : Type) (f g : A -> bool) (l : list A) :
  filter f (filter g l) = filter (fun x => g x && f x) l.
Proof.
  induction l as [|x l IH]; [reflexivity|]. simpl.
  destruct (g x); simpl; [destruct (f x)|]; rewrite IH; reflexivity.
Qed.

Lemma deduplicate_parts (modules : list ModuleRef) :
  deduplicate modules
  = keep_unseen [] (filter (fun m => dev m) modules)
      ++ keep_unseen [] (filter (fun m => negb (dev m)) modules).
Proof.
  unfold deduplicate. rewrite !deduplicateSimilarModules_keep. reflexivity.
Qed.

Lemma kept_part_flag (b : bool) (modules : list ModuleRef) (m : ModuleRef) :
  In m (keep_unseen [] (filter (fun m => Bool.eqb (dev m) b) modules)) ->
  In m modules /\ dev m = b.
Proof.
  intros H. apply keep_unseen_sound in H. destruct H as [H _].
  apply filter_In in H. destruct H as [H Hb]. split; [exact H|].
  apply eqb_prop. exact Hb.
Qed.

Lemma filter_dev_eqb (modules : list ModuleRef) :
  filter (fun m => dev m) modules
  = filter (fun m => Bool.eqb (dev m) true) modules
  /\ filter (fun m => negb (dev m)) modules
     = filter (fun m => Bool.eqb (dev m) false) modules.
Proof.
  split; apply filter_pointwise; intros m; destruct (dev m); reflexivity.
Qed.

Lemma deduplicate_In (modules : list ModuleRef) (m : ModuleRef) :
  In m (deduplicate modules) <-> In m modules.
Proof.
  rewrite deduplicate_parts, in_app_iff.
  destruct (filter_dev_eqb modules) as [-> ->]. split.
  - intros [H|H]; apply kept_part_flag in H; tauto.
  - intros H.
    assert (Hpart : In m (filter (fun m0 => Bool.eqb (dev m0) (dev m))
                                 modules)).
    { apply filter_In. split; [exact H | apply eqb_reflx]. }
    destruct (keep_unseen_complete _ [] m Hpart) as (m' & Hm' & Hn);
      [intros [] |].
    assert (Hd : dev m' = dev m) by (apply kept_part_flag in Hm'; tauto).
    assert (Heq : m' = m) by (destruct m', m; simpl in *; congruence).
    subst m'. destruct (dev m); [left | right]; exact Hm'.
Qed.

Lemma deduplicate_NoDup (modules : list ModuleRef) :
  NoDup (map (fun m => (name m, dev m)) (deduplicate modules)).
Proof.
  rewrite deduplicate_parts, map_app.
  destruct (filter_dev_eqb modules) as [-> ->].
  apply NoDup_app; try (apply NoDup_name_dev, keep_unseen_sound).
  intros [x d] H1 H2.
  apply in_map_iff in H1. destruct H1 as (m1 & E1 & H1).
  apply in_map_iff in H2. destruct H2 as (m2 & E2 & H2).
  apply kept_part_flag in H1. apply kept_part_flag in H2.
  destruct H1 as [_ H1], H2 as [_ H2]. congruence.
Qed.

Lemma keep_unseen_filter_by_name (p : str -> bool) (t : list ModuleRef) :
  forall seen seen',
    (forall x, p x = true -> (In x seen <-> In x seen')) ->
    filter (fun m => p (name m)) (keep_unseen seen t)
    = keep_unseen seen' (filter (fun m => p (name m)) t).
Proof.
  induction t as [|m t IH]; intros seen seen' Hseen; [reflexivity|].
  cbn [keep_unseen filter]. rewrite Array_indexOf_absent.
  destruct (p (name m)) eqn:Hp.
  - cbn [keep_unseen]. rewrite Array_indexOf_absent.
    destruct (in_dec str_eq_dec (name m) seen) as [H|H];
      destruct (in_dec str_eq_dec (name m) seen') as [H'|H'];
      try (exfalso; apply Hseen in Hp; tauto); cbn [negb filter].
    + apply IH, Hseen.
    + rewrite Hp. f_equal. apply IH. intros x Hx.
      rewrite !in_app_iff, (Hseen x Hx). reflexivity.
  - destruct (in_dec str_eq_dec (name m) seen) as [H|H]; cbn [negb filter].
    + apply IH, Hseen.
    + rewrite Hp. apply IH. intros x Hx. rewrite in_app_iff, (Hseen x Hx).
      simpl. split; [intros [Hin|[Heq|[]]]; [exact Hin | congruence] | auto].
Qed.

Lemma deduplicate_filter_by_name (p : str -> bool) (modules : list ModuleRef) :
  filter (fun m => p (name m)) (deduplicate modules)
  = deduplicate (filter (fun m => p (name m)) modules).
Proof.
  rewrite !deduplicate_parts, filter_app.
  rewrite !(keep_unseen_filter_by_name p _ [] []) by tauto.
  rewrite (filter_swap (fun m => p (name m)) (fun m => dev m)).
  rewrite (filter_swap (fun m => p (name m)) (fun m => negb (dev m))).
  reflexivity.
Qed.

(** X1. The names [deduplicateSimilarModules] returns are pairwise
    different and are, as a set, the names of its input, whatever the
    [dev] flags in it. *)
Theorem deduplicateSimilarModules_names (modules : list ModuleRef) :
  NoDup (getNamesFromModules (deduplicateSimilarModules modules))
  /\ (forall x,
         In x (getNamesFromModules (deduplicateSimilarModules modules))
         <-> In x (getNamesFromModules modules)).
Proof.
  rewrite deduplicateSimilarModules_keep.
  destruct (keep_unseen_sound modules []) as [Hnd Hin].
  split; [exact Hnd|]. intros x. unfold getNamesFromModules.
  rewrite !in_map_iff. split; intros (m & Hx & Hm).
  - exists m. split; [exact Hx | apply Hin, Hm].
  - destruct (keep_unseen_complete modules [] m Hm) as (m' & Hm' & Hn);
      [intros [] |]. exists m'. split; [congruence | exact Hm'].
Qed.

(** X2. [deduplicate] neither invents nor loses a module: a record (name
    and flag) is in its output exactly when it is in its input. *)
Theorem deduplicate_same_modules (modules : list ModuleRef) (m : ModuleRef) :
  In m (deduplicate modules) <-> In m modules.
Proof.
  apply deduplicate_In.
Qed.

(** X3. [deduplicate] is idempotent: its output is already deduplicated,
    development part first. *)
Theorem deduplicate_idempotent (modules : list ModuleRef) :
  deduplicate (deduplicate modules) = deduplicate modules.
Proof.
  rewrite (deduplicate_parts (deduplicate modules)).
  rewrite (deduplicate_parts modules).
  destruct (filter_dev_eqb modules) as [-> ->].
  set (A := keep_unseen [] (filter (fun m => Bool.eqb (dev m) true) modules)).
  set (B := keep_unseen [] (filter (fun m => Bool.eqb (dev m) false) modules)).
  assert (HA : forall m, In m A -> dev m = true)
    by (intros m H; apply kept_part_flag in H; tauto).
  assert (HB : forall m, In m B -> dev m = false)
    by (intros m H; apply kept_part_flag in H; tauto).
  rewrite !filter_app.
  rewrite (filter_all _ A) by (intros m H; rewrite (HA m H); reflexivity).
  rewrite (filter_none _ B) by (intros m H; rewrite (HB m H); reflexivity).
  rewrite (filter_none _ A) by (intros m H; rewrite (HA m H); reflexivity).
  rewrite (filter_all _ B) by (intros m H; rewrite (HB m H); reflexivity).
  rewrite app_nil_r. cbn [app].
  f_equal; apply keep_unseen_fixed;
    try (intros ? ? []); apply keep_unseen_sound.
Qed.

(** X4. Taking away two lists of declared modules at once is taking away
    one and then the other. *)
Theorem diff_app_second (a b1 b2 : list ModuleRef) :
  diff a (b1 ++ b2) = diff (diff a b1) b2.
Proof.
  rewrite !diff_filter, filter_both. apply filter_pointwise. intros m.
  unfold name_occurs. rewrite existsb_app, negb_orb. reflexivity.
Qed.

(** X5. [filterRegistryModules] returns, in order, exactly the modules
    that [is-builtin-module] does not know and whose name does not begin
    with [./]; applying it twice changes nothing. *)
Theorem filterRegistryModules_keeps
        (isBuiltInModule : str -> bool) (modules : list ModuleRef) :
  (forall m,
      In m (filterRegistryModules isBuiltInModule modules)
      <-> In m modules
          /\ isBuiltInModule (name m) = false
          /\ starts_with (lit "./") (name m) = false)
  /\ filterRegistryModules isBuiltInModule
       (filterRegistryModules isBuiltInModule modules)
     = filterRegistryModules isBuiltInModule modules.
Proof.
  rewrite !filterRegistryModules_filter. split.
  - intros m. rewrite filter_In, andb_true_iff, !negb_true_iff. tauto.
  - apply filter_all. intros m H. apply filter_In in H. tauto.
Qed.

(** X6. Classifying and diffing commute: filtering the difference is the
    difference of the filtered list. *)
Theorem filterRegistryModules_diff
        (isBuiltInModule : str -> bool) (a b : list ModuleRef) :
  filterRegistryModules isBuiltInModule (diff a b)
  = diff (filterRegistryModules isBuiltInModule a) b.
Proof.
  rewrite !filterRegistryModules_filter, !diff_filter. apply filter_swap.
Qed.

(** X7. De-duplicating and diffing commute: the difference of the
    de-duplicated list is the de-duplicated difference. *)
Theorem diff_deduplicate (a b : list ModuleRef) :
  diff (deduplicate a) b = deduplicate (diff a b).
Proof.
  rewrite !diff_filter.
  apply (deduplicate_filter_by_name
           (fun x => negb (name_occurs x b)) a).
Qed.

(** X8. De-duplicating and classifying commute as well. *)
Theorem filterRegistryModules_deduplicate
        (isBuiltInModule : str -> bool) (modules : list ModuleRef) :
  filterRegistryModules isBuiltInModule (deduplicate modules)
  = deduplicate (filterRegistryModules isBuiltInModule modules).
Proof.
  rewrite !filterRegistryModules_filter.
  apply (deduplicate_filter_by_name
           (fun x => negb (isBuiltInModule x)
                     && negb (starts_with (lit "./") x)) modules).
Qed.

(* ================================================================== *)
(** ** Further properties: extraction *)
(* ================================================================== *)

Lemma getModulesFromFile_step_strip (modules : list str) (match_ : str) :
  getModulesFromFile_step modules match_
  = Ok (modules ++ [strip_call match_]).
Proof.
  unfold getModulesFromFile_step, strip_call.
  rewrite isValidModule_of_string. reflexivity.
Qed.

Lemma getModulesFromFile_loop_strip (matches : list str) :
  forall modules,
    fold_left (fun acc match_ =>
                 rbind acc (fun modules =>
                 getModulesFromFile_step modules match_))
              matches (Ok modules)
    = Ok (modules ++ map strip_call matches).
Proof.
  induction matches as [|m matches IH]; intros modules;
    cbn [map fold_left rbind].
  - rewrite app_nil_r. reflexivity.
  - rewrite getModulesFromFile_step_strip, IH, <- app_assoc. reflexivity.
Qed.

Lemma getModulesFromFile_matches
      (readFileSync : str -> result str) (path : str) :
  getModulesFromFile readFileSync path
  = rbind (readFileSync path) (fun content =>
    Ok (map strip_call (match_all pattern 0 0 content))).
Proof.
  unfold getModulesFromFile, String_match.
  destruct (readFileSync path) as [content|e]; cbn [rbind]; [|reflexivity].
  destruct (match_all pattern 0 0 content) as [|m ms] eqn:E; [reflexivity|].
  apply (getModulesFromFile_loop_strip (m :: ms) []).
Qed.

(** X9. [getModulesFromFile] throws only what reading the file throws, and
    on a readable file it returns one candidate for every match of the
    pattern, in order: the validator never removes one. *)
Theorem getModulesFromFile_one_per_match
        (readFileSync : str -> result str) (path : str) :
  getModulesFromFile readFileSync path
  = match readFileSync path with
    | Ok content => Ok (map strip_call (match_all pattern 0 0 content))
    | Throw e => Throw e
    end.
Proof.
  rewrite getModulesFromFile_matches.
  destruct (readFileSync path); reflexivity.
Qed.

Lemma match_all_no_require (rest : str) (idx : nat) :
  no_require rest = true -> match_all pattern 0 idx rest = [].
Proof.
  intros H. rewrite <- (app_nil_r rest), match_all_leading_text by auto.
  reflexivity.
Qed.

Lemma match_all_one_line_call (a rest : str) (idx : nat) :
  forallb (fun c => negb (line_terminator c) && negb (ch ")" =? c)%N) a
  = true ->
  match_all pattern 0 idx ((lit "require(" ++ a ++ lit ")") ++ rest)
  = (lit "require(" ++ a ++ lit ")")
      :: match_all pattern 0 (idx + (length a + 9)) rest.
Proof.
  intros Ha.
  assert (Hm : match_at pattern idx ((lit "require(" ++ a ++ lit ")") ++ rest)
               = Some (idx + (length a + 9))%nat).
  { rewrite pattern_unfold, <- app_assoc, starts_with_app.
    change (skipn 8 (lit "require(" ++ (a ++ lit ")") ++ rest))
      with ((a ++ lit ")") ++ rest).
    rewrite <- app_assoc. change (lit ")" ++ rest) with (ch ")" :: rest).
    rewrite (lazy_until_paren a rest Ha). f_equal. lia. }
  assert (Hlen : length (lit "require(" ++ a ++ lit ")") = (length a + 9)%nat)
    by (rewrite !length_app; simpl; lia).
  remember (lit "require(" ++ a ++ lit ")") as call eqn:Hcall.
  destruct call as [|c call]; [discriminate|].
  cbn [app match_all]. cbn [app] in Hm. rewrite Hm.
  cbn [length] in Hlen.
  replace (idx + (length a + 9) - idx)%nat with (S (length call)) by lia.
  f_equal.
  - cbn [firstn]. f_equal. apply firstn_length_app.
  - replace (S (length call) - 1)%nat with (length call) by lia.
    rewrite match_all_skip. f_equal. lia.
Qed.

Lemma strip_call_blind (a : str) :
  strip_call (lit "require(" ++ a ++ lit ")") = removelast (tl a).
Proof.
  unfold strip_call.
  assert (Hreplace : replace (lit "require(" ++ a ++ lit ")")
                             (lit "require") (lit "")
                     = ch "(" :: a ++ [ch ")"]) by reflexivity.
  rewrite Hreplace.
  destruct a as [|c [|d a]]; try reflexivity.
  assert (Hfrom : substring_from (ch "(" :: (c :: d :: a) ++ [ch ")"]) 2
                  = (d :: a) ++ [ch ")"]).
  { unfold substring_from. rewrite substring_in_range.
    - change (Z.to_nat 2) with 2%nat. cbn [skipn app].
      rewrite firstn_all2; [reflexivity|].
      cbn [length]. rewrite !length_app. cbn [length]. lia.
    - cbn [length app]. lia.
    - lia. }
  rewrite Hfrom, length_app. cbn [length].
  rewrite substring_in_range
    by (rewrite ?length_app; cbn [length]; lia).
  change (Z.to_nat 0) with 0%nat. cbn [skipn tl].
  replace (Z.to_nat (Z.of_nat (S (length a) + 1) - 2 - 0)) with (length a)
    by lia.
  rewrite removelast_firstn_len, firstn_app. cbn [length Nat.pred].
  replace (length a - S (length a))%nat with 0%nat by lia.
  cbn [firstn]. rewrite app_nil_r. reflexivity.
Qed.

(** X10. The argument of a call is cut blindly: for a file that holds one
    [require(...)] whose argument text [a] stays on one line and holds no
    closing parenthesis, among text without [require(], the one candidate
    returned is [a] without its first and its last unit, be they quotes
    or not (and the empty name when [a] has fewer than two units). *)
Theorem getModulesFromFile_cuts_blindly
        (readFileSync : str -> result str) (path : str)
        (before_ a after_ : str) :
  readFileSync path
  = Ok (before_ ++ (lit "require(" ++ a ++ lit ")") ++ after_) ->
  no_require before_ = true ->
  no_require after_ = true ->
  forallb (fun c => negb (line_terminator c) && negb (ch ")" =? c)%N) a
  = true ->
  getModulesFromFile readFileSync path = Ok [removelast (tl a)].
Proof.
  intros Hread Hbefore Hafter Ha.
  rewrite getModulesFromFile_matches, Hread. cbn [rbind].
  rewrite match_all_leading_text;
    [| exact Hbefore | right; rewrite <- app_assoc; apply starts_with_app].
  rewrite (match_all_one_line_call a after_ _ Ha).
  rewrite (match_all_no_require _ _ Hafter).
  cbn [map]. rewrite strip_call_blind. reflexivity.
Qed.

Lemma getModulesFromFile_cuts_blindly_witness :
  getModulesFromFile
    (fun _ => Ok (lit "var m = " ++ (lit "require(" ++ lit "name + 1" ++ lit ")")
                    ++ lit ";"))
    (lit "index.js")
  = Ok [lit "ame + "].
Proof.
  apply (getModulesFromFile_cuts_blindly
           (fun _ => Ok (lit "var m = "
                           ++ (lit "require(" ++ lit "name + 1" ++ lit ")")
                           ++ lit ";"))
           (lit "index.js") (lit "var m = ") (lit "name + 1") (lit ";"));
    reflexivity.
Defined.





(* ================================================================== *)
(** ** Further properties: test files *)
(* ================================================================== *)

Lemma ends_with_suffix (p s : str) :
  ends_with p s = true <-> exists pre, s = pre ++ p.
Proof.
  unfold ends_with. split.
  - intros H. apply starts_with_inv in H. destruct H as [t Ht].
    exists (rev t). rewrite <- (rev_involutive s), Ht, rev_app_distr,
      rev_involutive. reflexivity.
  - intros [pre ->]. rewrite rev_app_distr. apply starts_with_app.
Qed.

(** X12. [isTestFile] answers [true] exactly for the names that end in
    [.spec.js] or in [.test.js]. *)
Theorem isTestFile_suffix (name : str) :
  isTestFile name = true
  <-> exists pre, name = pre ++ lit ".spec.js" \/ name = pre ++ lit ".test.js".
Proof.
  unfold isTestFile. rewrite orb_true_iff, !ends_with_suffix.
  split.
  - intros [[pre H]|[pre H]]; exists pre; auto.
  - intros [pre [H|H]]; [left | right]; exists pre; exact H.
Qed.

(* ================================================================== *)
(** ** Further properties: the scan of a project *)
(* ================================================================== *)

(** The modules one readable file contributes. *)
Lemma getUsedModules_loop
      (readFileSync : str -> result str) (files : list str) :
  (forall f, In f files -> exists c, readFileSync f = Ok c) ->
  forall usedModules,
    fold_left (fun acc fileName =>
                 rbind acc (fun usedModules =>
                 rbind (getModulesFromFile readFileSync fileName)
                       (fun modulesFromFile =>
                 Ok (usedModules
                       ++ map (fun name => mkModule name (isTestFile fileName))
                              modulesFromFile))))
              files (Ok usedModules)
    = Ok (usedModules
            ++ flat_map
                 (fun f =>
                    match readFileSync f with
                    | Ok c =>
                        map (fun n => mkModule n (isTestFile f))
                            (map strip_call (match_all pattern 0 0 c))
                    | Throw _ => []
                    end)
                 files).
Proof.
  induction files as [|f files IH]; intros Hread usedModules;
    cbn [fold_left flat_map rbind].
  - rewrite app_nil_r. reflexivity.
  - rewrite getModulesFromFile_matches.
    destruct (Hread f (or_introl eq_refl)) as [c Hc]. rewrite Hc.
    cbn [rbind]. rewrite IH by (intros g Hg; apply Hread; right; exact Hg).
    rewrite <- app_assoc. reflexivity.
Qed.

Lemma getUsedModules_loop_thrown
      (readFileSync : str -> result str) (files : list str) (e : exn) :
  fold_left (fun acc fileName =>
               rbind acc (fun usedModules =>
               rbind (getModulesFromFile readFileSync fileName)
                     (fun modulesFromFile =>
               Ok (usedModules
                     ++ map (fun name => mkModule name (isTestFile fileName))
                            modulesFromFile))))
            files (Throw e)
  = Throw e.
Proof. induction files as [|f files IH]; [reflexivity | exact IH]. Qed.

(** X13. When every file [glob] lists can be read, [getUsedModules] returns
    a list without two entries of the same name and flag, and a module
    [{n, d}] is in it exactly when some listed file yields the candidate
    [n] and is a test file or not according to [d]. *)
Theorem getUsedModules_readable
        (readFileSync : str -> result str)
        (glob_sync : str -> GlobOptions -> list str) :
  (forall f, In f (getFiles glob_sync VUndefined) ->
             exists c, readFileSync f = Ok c) ->
  exists used,
    getUsedModules readFileSync glob_sync = Ok used
    /\ NoDup (map (fun m => (name m, dev m)) used)
    /\ (forall n d,
           In (mkModule n d) used
           <-> exists f c,
                 In f (getFiles glob_sync VUndefined)
                 /\ readFileSync f = Ok c
                 /\ In n (map strip_call (match_all pattern 0 0 c))
                 /\ isTestFile f = d).
Proof.
  intros Hread. unfold getUsedModules. cbv zeta.
  rewrite (getUsedModules_loop readFileSync _ Hread []). cbn [rbind app].
  eexists. split; [reflexivity|]. split; [apply deduplicate_NoDup|].
  intros n d. rewrite deduplicate_In, in_flat_map. split.
  - intros (f & Hf & Hin). destruct (readFileSync f) as [c|e] eqn:Hc;
      [|contradiction].
    apply in_map_iff in Hin. destruct Hin as (n' & Heq & Hn').
    injection Heq as -> <-. exists f, c. auto.
  - intros (f & c & Hf & Hc & Hn & Hd). exists f. split; [exact Hf|].
    rewrite Hc, <- Hd. apply (in_map (fun n => mkModule n (isTestFile f))).
    exact Hn.
Qed.

Lemma getUsedModules_readable_witness :
  exists used,
    getUsedModules fs_two_files glob_two_files = Ok used
    /\ NoDup (map (fun m => (name m, dev m)) used)
    /\ (forall n d,
           In (mkModule n d) used
           <-> exists f c,
                 In f (getFiles glob_two_files VUndefined)
                 /\ fs_two_files f = Ok c
                 /\ In n (map strip_call (match_all pattern 0 0 c))
                 /\ isTestFile f = d).
Proof.
  apply (getUsedModules_readable fs_two_files glob_two_files).
  intros f [<-|[<-|[]]]; eexists; reflexivity.
Defined.

(** X14. One unreadable file aborts the scan: when reading a listed file
    throws and the files listed before it can be read, [getUsedModules]
    throws the same exception and returns no partial list. *)
Theorem getUsedModules_unreadable
        (readFileSync : str -> result str)
        (glob_sync : str -> GlobOptions -> list str)
        (earlier later : list str) (f : str) (e : exn) :
  getFiles glob_sync VUndefined = earlier ++ f :: later ->
  (forall g, In g earlier -> exists c, readFileSync g = Ok c) ->
  readFileSync f = Throw e ->
  getUsedModules readFileSync glob_sync = Throw e.
Proof.
  intros Hfiles Hread Hf. unfold getUsedModules. cbv zeta.
  rewrite Hfiles, fold_left_app.
  rewrite (getUsedModules_loop readFileSync earlier Hread []).
  cbn [fold_left rbind]. rewrite getModulesFromFile_matches, Hf.
  cbn [rbind]. rewrite getUsedModules_loop_thrown. reflexivity.
Qed.

Lemma getUsedModules_unreadable_witness :
  getUsedModules fs_test_unreadable glob_two_files = Throw IOError.
Proof.
  apply (@getUsedModules_unreadable fs_test_unreadable glob_two_files
           [lit "index.js"] [] (lit "index.test.js") IOError).
  - reflexivity.
  - intros g [<-|[]]. eexists. reflexivity.
  - reflexivity.
Defined.

(* ================================================================== *)
(** ** Further properties: the manifest *)
(* ================================================================== *)

Lemma push_all (A : Type) (f : A -> ModuleRef) (keys : list A) :
  forall acc,
    fold_left (fun installedModules key => installedModules ++ [f key])
              keys acc
    = acc ++ map f keys.
Proof.
  induction keys as [|k keys IH]; intros acc; simpl.
  - rewrite app_nil_r. reflexivity.
  - rewrite IH, <- app_assoc. reflexivity.
Qed.

(** X15. When [package.json] is read and parsed and both sections are
    reached, [getInstalledModules] lists the keys of [dependencies] with
    the flag off, then the keys of [devDependencies] with the flag on; and
    a used module is missing (in [diff used installed]) exactly when its
    name is a key of neither section, whatever its own flag. *)
Theorem getInstalledModules_sections
        (json : Type) (JSON_parse : str -> result json)
        (get_property : json -> str -> result json)
        (for_in_keys : json -> list str)
        (readFileSync : str -> result str)
        (text : str) (content dependencies devDependencies : json) :
  readFileSync (lit "package.json") = Ok text ->
  JSON_parse text = Ok content ->
  get_property content (lit "dependencies") = Ok dependencies ->
  get_property content (lit "devDependencies") = Ok devDependencies ->
  exists installed,
    getInstalledModules JSON_parse get_property for_in_keys readFileSync
    = Ok installed
    /\ installed
       = map (fun key => mkModule key false) (for_in_keys dependencies)
           ++ map (fun key => mkModule key true)
                  (for_in_keys devDependencies)
    /\ (forall used m,
           In m (diff used installed)
           <-> In m used
               /\ ~ In (name m) (for_in_keys dependencies)
               /\ ~ In (name m) (for_in_keys devDependencies)).
Proof.
  intros Hread Hparse Hdeps Hdev. unfold getInstalledModules, readFile.
  rewrite Hread. cbn [rbind]. rewrite Hparse. cbn [rbind].
  rewrite Hdeps. cbn [rbind]. rewrite Hdev. cbn [rbind].
  rewrite !push_all. cbn [app].
  eexists. split; [reflexivity|]. split; [reflexivity|].
  intros used m. rewrite diff_filter, filter_In, negb_true_iff.
  assert (Hocc : name_occurs (name m)
                   (map (fun key => mkModule key false)
                        (for_in_keys dependencies)
                      ++ map (fun key => mkModule key true)
                             (for_in_keys devDependencies)) = true
                 <-> In (name m) (for_in_keys dependencies)
                     \/ In (name m) (for_in_keys devDependencies)).
  { rewrite name_occurs_In. unfold getNamesFromModules.
    rewrite map_app, !map_map, in_app_iff. cbn [name].
    rewrite !map_id. reflexivity. }
  destruct (name_occurs _ _); intuition congruence.
Qed.

Lemma getInstalledModules_sections_witness :
  exists installed,
    getInstalledModules
      (fun _ => Ok (PObject (mkManifest [lit "lodash"] [lit "mocha"])))
      get_property_parsed for_in_keys_parsed
      (fun _ => Ok (lit "{}"))
    = Ok installed
    /\ installed
       = map (fun key => mkModule key false)
             (for_in_keys_parsed (PKeys [lit "lodash"]))
           ++ map (fun key => mkModule key true)
                  (for_in_keys_parsed (PKeys [lit "mocha"]))
    /\ (forall used m,
           In m (diff used installed)
           <-> In m used
               /\ ~ In (name m) (for_in_keys_parsed (PKeys [lit "lodash"]))
               /\ ~ In (name m) (for_in_keys_parsed (PKeys [lit "mocha"]))).
Proof.
  apply (getInstalledModules_sections
           (fun _ => Ok (PObject (mkManifest [lit "lodash"] [lit "mocha"])))
           get_property_parsed for_in_keys_parsed
           (fun _ => Ok (lit "{}"))
           (text := lit "{}")
           (content := PObject (mkManifest [lit "lodash"] [lit "mocha"])));
    reflexivity.
Defined.

(* ================================================================== *)
(** ** Further properties: apply actions *)
(* ================================================================== *)

(** X16. [reinstall] runs [npm install] between starting and stopping its
    spinner and prints nothing, whether the command succeeds or not. *)
Theorem reinstall_silent (syncExec : str -> Z) :
  run (reinstall syncExec)
  = (Ok tt,
     [SpinnerStart (lit "Cleaning up") (lit "green");
      Exec (lit "npm install");
      SpinnerStop]).
Proof. reflexivity. Qed.

(** X17. In secure mode the gate is asked about the string it is handed
    only through [.name], which a string does not have: the request, and
    so the answer, is the same for every module name. *)
Theorem isModulePopular_same_for_all
        (request : str -> str -> (value -> value -> value -> result value)
                   -> result value)
        (body_downloads : value -> result (option Z)) (s1 s2 : str) :
  isModulePopular request body_downloads (VStr s1)
  = isModulePopular request body_downloads (VStr s2).
Proof. reflexivity. Qed.

(** X18. In secure mode, when the request to the registry throws,
    [installModule] throws too: the spinner has been started and is not
    stopped, nothing is printed and no command is run. *)
Theorem installModule_registry_throws
        (syncExec : str -> Z)
        (request : str -> str -> (value -> value -> value -> result value)
                   -> result value)
        (body_downloads : value -> result (option Z))
        (m : ModuleRef) (e : exn) :
  (forall url callback, request (lit "GET") url callback = Throw e) ->
  run (installModule syncExec request body_downloads true (VModule m))
  = (Throw e, [SpinnerStart (lit "Installing " ++ name m) (lit "green")]).
Proof.
  intros Hthrow.
  unfold run, installModule, bind, lift, ret, startSpinner, emit,
    isModulePopular.
  cbn [destructure_name_dev rbind ToString app name dev].
  rewrite Hthrow. reflexivity.
Qed.

Lemma installModule_registry_throws_witness :
  run (installModule syncExec_failing request_unreachable
                     downloads_fifty_million true
                     (VModule (mkModule (lit "lodash") false)))
  = (Throw IOError,
     [SpinnerStart (lit "Installing " ++ lit "lodash") (lit "green")]).
Proof.
  apply (installModule_registry_throws syncExec_failing request_unreachable
           downloads_fifty_million (mkModule (lit "lodash") false)
           (e := IOError)).
  intros url callback. reflexivity.
Defined.
